(** * Season service of the gohtb client: request pipeline

    Shallow embedding of [services/seasons/service.go].  The file holds the
    handle constructor [Season] and six accessor methods.  Every accessor
    wraps the caller's context with the shared rate limiter, issues one call
    of the generated v4 client, hands the raw response to [common.Parse] and
    assembles a typed envelope.

    The collaborators ([service.Client], the generated v4 client, the rate
    limiter, [common.Parse] and the generated parse functions) are declared
    in other packages.  They are parameters of the development: the Go types
    in the class [GoTypes], the v4 client and the limiter as records of
    functions over an abstract world [W] (network and limiter accounting),
    the package-level functions in the class [Imports].

    Go pointers to [Service] and [Handle] are locations of a store; a
    location that is not allocated plays the role of [nil], and dereferencing
    it panics.  Every call of a collaborator is recorded in a trace, so that
    "called once" and "never called" are statements about the trace.

    [service.Client] is an interface: a value of it is either nil or a
    client with the methods [V4()] and [Limiter()], and a method call on the
    nil interface panics.  A receiver may hold the nil interface
    ([NewService(nil)], [&Handle{}]).

    One thing is taken for granted: a call of a collaborator returns (it
    neither panics nor blocks for ever). *)

From stdpp Require Import gmap list.

(** ** Go values *)

(** Every Go type has a zero value; [T{}] and omitted struct fields denote
    it. *)
Class Zero (T : Type) := zero : T.

#[export] Instance Z_Zero : Zero Z := 0%Z.

(** A Go call either returns or panics. *)
Inductive Outcome (A : Type) : Type :=
| Return (a : A)
| Panic.

Arguments Return {A} a.
Arguments Panic {A}.

(** Store locations. *)
Abbreviation loc := positive (only parsing).

(** ** The generated client's response types

    The structs that the parse functions of [httpclient/v4] return are not
    declared in [service.go], which only reads [parsed.JSON200.Data]. *)
Module v4Client.

(** Modelled from the spec: the payload of the "status-code-keyed" part of
    a parse result, for status 200.  Only the field that [service.go] reads
    is kept. *)
Record JSON200Body (D : Type) : Type := { Data : D }.
Arguments Data {D} _.

(** Modelled from the spec: the "structured parse result (including a
    status-code-keyed payload)" of a decode function.  [JSON200] is a
    pointer, nil when the response carried no decoded 200 body; the parse
    functions return a pointer to this struct. *)
Record Response (D : Type) : Type := { JSON200 : option (JSON200Body D) }.
Arguments JSON200 {D} _.

End v4Client.

(** The remote endpoints used by the season service, one per generated
    client method. *)
Inductive Endpoint : Type :=
| EpSeasonRewards
| EpSeasonUserRank
| EpSeasonUserFollowers
| EpSeasonList
| EpSeasonMachines
| EpSeasonMachineActive.

(** The Go types the package takes from elsewhere.  [W]: state of the
    outside world as seen through the client (network, limiter accounting).
    [Ctx]: [context.Context].  [HTTPResponse]: pointer to [http.Response].
    [Err]: non-nil values of type [error].  [common_ResponseMeta]:
    [common.ResponseMeta], whose zero value is [common.ResponseMeta{}].  The
    last six are the payload types of the envelopes. *)
Class GoTypes : Type := {
  W : Type;
  Ctx : Type;
  HTTPResponse : Type;
  Err : Type;
  common_ResponseMeta : Type;
  meta_zero :: Zero common_ResponseMeta;
  RewardsData : Type;
  UserRankData : Type;
  UserFollowersData : Type;
  ListData : Type;
  MachinesData : Type;
  ActiveMachineData : Type;
  rewards_zero :: Zero RewardsData;
  userRank_zero :: Zero UserRankData;
  userFollowers_zero :: Zero UserFollowersData;
  list_zero :: Zero ListData;
  machines_zero :: Zero MachinesData;
  activeMachine_zero :: Zero ActiveMachineData
}.

Section Seasons.

Context {T : GoTypes}.

(** A value of type [error]: [None] is [nil]. *)
Definition error : Type := option Err.

(** *** Collaborators *)

(** The generated v4 client: each method takes a context (and the season id
    where the endpoint has one) and returns a response pointer and an
    [error]. *)
Record V4Client : Type := {
  GetSeasonRewards : Ctx -> Z -> W -> (HTTPResponse * error) * W;
  GetSeasonUserRank : Ctx -> Z -> W -> (HTTPResponse * error) * W;
  GetSeasonUserFollowers : Ctx -> Z -> W -> (HTTPResponse * error) * W;
  GetSeasonList : Ctx -> W -> (HTTPResponse * error) * W;
  GetSeasonMachines : Ctx -> W -> (HTTPResponse * error) * W;
  GetSeasonMachineActive : Ctx -> W -> (HTTPResponse * error) * W
}.

(** The rate limiter: [Wrap] takes a context and returns a context. *)
Record RateLimiter : Type := {
  Wrap : Ctx -> W -> Ctx * W
}.

(** A client behind the interface [service.Client], with the getters
    [V4()] and [Limiter()]. *)
Record ClientImpl : Type := {
  V4 : V4Client;
  Limiter : RateLimiter
}.

(** A value of the interface type [service.Client]: [None] is the nil
    interface. *)
Definition service_Client : Type := option ClientImpl.

(** [service.Base], as far as [service.go] reads it. *)
Record Base : Type := { Client : service_Client }.

(** The package-level functions the file calls: [common.Parse], which
    returns [(T, ResponseMeta, error)], the generated parse functions and
    [service.NewBase]. *)
Class Imports : Type := {
  common_Parse :
    forall A : Type,
      HTTPResponse -> (HTTPResponse -> A * error) ->
      A * common_ResponseMeta * error;
  ParseGetSeasonRewardsResponse :
    HTTPResponse -> option (v4Client.Response RewardsData) * error;
  ParseGetSeasonUserRankResponse :
    HTTPResponse -> option (v4Client.Response UserRankData) * error;
  ParseGetSeasonUserFollowersResponse :
    HTTPResponse -> option (v4Client.Response UserFollowersData) * error;
  ParseGetSeasonListResponse :
    HTTPResponse -> option (v4Client.Response ListData) * error;
  ParseGetSeasonMachinesResponse :
    HTTPResponse -> option (v4Client.Response MachinesData) * error;
  ParseGetSeasonMachineActiveResponse :
    HTTPResponse -> option (v4Client.Response ActiveMachineData) * error;
  service_NewBase : service_Client -> Base
}.

Context {I : Imports}.

(** *** Data model of the package

    [Service], [Handle] and the envelope types are declared in another file
    of the package; their fields are those that the composite literals and
    selectors of [service.go] name. *)

Record Service : Type := { base : Base }.

Record Handle : Type := { client : service_Client; id : Z }.

(** The typed envelopes: a payload and the response metadata. *)
Record Envelope (D : Type) : Type := {
  Data : D;
  ResponseMeta : common_ResponseMeta
}.
Arguments Data {D} _.
Arguments ResponseMeta {D} _.

Definition RewardsResponse : Type := Envelope RewardsData.
Definition UserRankResponse : Type := Envelope UserRankData.
Definition UserFollowersResponse : Type := Envelope UserFollowersData.
Definition ListResponse : Type := Envelope ListData.
Definition MachinesResponse : Type := Envelope MachinesData.
Definition ActiveMachineResponse : Type := Envelope ActiveMachineData.

(** *** Program state *)

(** What a call of a collaborator leaves in the trace. *)
Inductive Event : Type :=
| EvWrap (ctx : Ctx)
| EvRequest (ep : Endpoint) (ctx : Ctx) (params : list Z)
| EvParse (ep : Endpoint) (resp : HTTPResponse).

Record State : Type := {
  world : W;
  handles : gmap positive Handle;
  services : gmap positive Service;
  trace : list Event
}.

Definition M (A : Type) : Type := State -> Outcome A * State.

Definition ret {A : Type} (a : A) : M A := fun st => (Return a, st).

Definition bind {A B : Type} (m : M A) (k : A -> M B) : M B :=
  fun st =>
    match m st with
    | (Return a, st') => k a st'
    | (Panic, st') => (Panic, st')
    end.

Notation "'let*' x ':=' m 'in' k" := (bind m (fun x => k))
  (at level 10, x pattern, m at level 100, k at level 200).

(** Dereference of a pointer value. *)
Definition deref {A : Type} (p : option A) : M A :=
  fun st =>
    match p with
    | Some a => (Return a, st)
    | None => (Panic, st)
    end.

Definition loadHandle (h : loc) : M Handle :=
  fun st => deref (handles st !! h) st.

Definition loadService (s : loc) : M Service :=
  fun st => deref (services st !! s) st.

(** [&Handle{...}] and [&Service{...}]: a fresh location. *)
Definition allocHandle (hv : Handle) : M loc :=
  fun st =>
    let l := fresh (dom (handles st)) in
    (Return l,
     {| world := world st; handles := <[l := hv]> (handles st);
        services := services st; trace := trace st |}).

Definition allocService (sv : Service) : M loc :=
  fun st =>
    let l := fresh (dom (services st)) in
    (Return l,
     {| world := world st; handles := handles st;
        services := <[l := sv]> (services st); trace := trace st |}).

Definition emit (e : Event) : M unit :=
  fun st =>
    (Return tt,
     {| world := world st; handles := handles st;
        services := services st; trace := trace st ++ [e] |}).

Definition perform {A : Type} (f : W -> A * W) : M A :=
  fun st =>
    let (a, w) := f (world st) in
    (Return a,
     {| world := w; handles := handles st;
        services := services st; trace := trace st |}).

(** Field reads through the receiver pointers. *)
Definition h_client (h : loc) : M service_Client :=
  let* hv := loadHandle h in ret (client hv).

Definition h_id (h : loc) : M Z :=
  let* hv := loadHandle h in ret (id hv).

Definition s_base_Client (s : loc) : M service_Client :=
  let* sv := loadService s in ret (Client (base sv)).

(** Method calls on a [service.Client] value: on the nil interface they
    panic. *)
Definition clientV4 (c : service_Client) : M V4Client :=
  let* ci := deref c in ret (V4 ci).

Definition clientLimiter (c : service_Client) : M RateLimiter :=
  let* ci := deref c in ret (Limiter ci).

(** Calls of the collaborators, each leaving its event. *)
Definition limiterWrap (l : RateLimiter) (ctx : Ctx) : M Ctx :=
  let* _ := emit (EvWrap ctx) in perform (Wrap l ctx).

Definition request (ep : Endpoint) (params : list Z) (ctx : Ctx)
    (call : W -> (HTTPResponse * error) * W) : M (HTTPResponse * error) :=
  let* _ := emit (EvRequest ep ctx params) in perform call.

Definition Parse {A : Type} (ep : Endpoint) (resp : HTTPResponse)
    (parseFn : HTTPResponse -> A * error) :
    M (A * common_ResponseMeta * error) :=
  let* _ := emit (EvParse ep resp) in ret (common_Parse A resp parseFn).

(** *** The functions of service.go *)

Definition NewService (c : service_Client) : M loc :=
  allocService {| base := service_NewBase c |}.

Definition Season (s : loc) (id : Z) : M loc :=
  let* c := s_base_Client s in
  allocHandle {| client := c; id := id |}.

Definition Rewards (h : loc) (ctx : Ctx) : M (RewardsResponse * error) :=
  let* c := h_client h in
  let* v4 := clientV4 c in
  let* cl := h_client h in
  let* lim := clientLimiter cl in
  let* lctx := limiterWrap lim ctx in
  let* i := h_id h in
  let* (resp, err) :=
    request EpSeasonRewards [i] lctx (GetSeasonRewards v4 lctx i) in
  match err with
  | Some _ => ret ({| Data := zero; ResponseMeta := zero |}, err)
  | None =>
    let* (parsed, meta, err) :=
      Parse EpSeasonRewards resp ParseGetSeasonRewardsResponse in
    match err with
    | Some _ => ret ({| Data := zero; ResponseMeta := meta |}, err)
    | None =>
      let* p := deref parsed in
      let* body := deref (v4Client.JSON200 p) in
      ret ({| Data := v4Client.Data body; ResponseMeta := meta |}, None)
    end
  end.

Definition UserRank (h : loc) (ctx : Ctx) : M (UserRankResponse * error) :=
  let* c := h_client h in
  let* v4 := clientV4 c in
  let* cl := h_client h in
  let* lim := clientLimiter cl in
  let* lctx := limiterWrap lim ctx in
  let* i := h_id h in
  let* (resp, err) :=
    request EpSeasonUserRank [i] lctx (GetSeasonUserRank v4 lctx i) in
  match err with
  | Some _ => ret ({| Data := zero; ResponseMeta := zero |}, err)
  | None =>
    let* (parsed, meta, err) :=
      Parse EpSeasonUserRank resp ParseGetSeasonUserRankResponse in
    match err with
    | Some _ => ret ({| Data := zero; ResponseMeta := meta |}, err)
    | None =>
      let* p := deref parsed in
      let* body := deref (v4Client.JSON200 p) in
      ret ({| Data := v4Client.Data body; ResponseMeta := meta |}, None)
    end
  end.

Definition UserFollowers (h : loc) (ctx : Ctx) : M (UserFollowersResponse * error) :=
  let* c := h_client h in
  let* v4 := clientV4 c in
  let* cl := h_client h in
  let* lim := clientLimiter cl in
  let* lctx := limiterWrap lim ctx in
  let* i := h_id h in
  let* (resp, err) :=
    request EpSeasonUserFollowers [i] lctx (GetSeasonUserFollowers v4 lctx i) in
  match err with
  | Some _ => ret ({| Data := zero; ResponseMeta := zero |}, err)
  | None =>
    let* (parsed, meta, err) :=
      Parse EpSeasonUserFollowers resp ParseGetSeasonUserFollowersResponse in
    match err with
    | Some _ => ret ({| Data := zero; ResponseMeta := meta |}, err)
    | None =>
      let* p := deref parsed in
      let* body := deref (v4Client.JSON200 p) in
      ret ({| Data := v4Client.Data body; ResponseMeta := meta |}, None)
    end
  end.

Definition List (s : loc) (ctx : Ctx) : M (ListResponse * error) :=
  let* c := s_base_Client s in
  let* v4 := clientV4 c in
  let* cl := s_base_Client s in
  let* lim := clientLimiter cl in
  let* lctx := limiterWrap lim ctx in
  let* (resp, err) :=
    request EpSeasonList [] lctx (GetSeasonList v4 lctx) in
  match err with
  | Some _ => ret ({| Data := zero; ResponseMeta := zero |}, err)
  | None =>
    let* (parsed, meta, err) :=
      Parse EpSeasonList resp ParseGetSeasonListResponse in
    match err with
    | Some _ => ret ({| Data := zero; ResponseMeta := meta |}, err)
    | None =>
      let* p := deref parsed in
      let* body := deref (v4Client.JSON200 p) in
      ret ({| Data := v4Client.Data body; ResponseMeta := meta |}, None)
    end
  end.

Definition Machines (s : loc) (ctx : Ctx) : M (MachinesResponse * error) :=
  let* c := s_base_Client s in
  let* v4 := clientV4 c in
  let* cl := s_base_Client s in
  let* lim := clientLimiter cl in
  let* lctx := limiterWrap lim ctx in
  let* (resp, err) :=
    request EpSeasonMachines [] lctx (GetSeasonMachines v4 lctx) in
  match err with
  | Some _ => ret ({| Data := zero; ResponseMeta := zero |}, err)
  | None =>
    let* (parsed, meta, err) :=
      Parse EpSeasonMachines resp ParseGetSeasonMachinesResponse in
    match err with
    | Some _ => ret ({| Data := zero; ResponseMeta := meta |}, err)
    | None =>
      let* p := deref parsed in
      let* body := deref (v4Client.JSON200 p) in
      ret ({| Data := v4Client.Data body; ResponseMeta := meta |}, None)
    end
  end.

Definition ActiveMachine (s : loc) (ctx : Ctx) : M (ActiveMachineResponse * error) :=
  let* c := s_base_Client s in
  let* v4 := clientV4 c in
  let* cl := s_base_Client s in
  let* lim := clientLimiter cl in
  let* lctx := limiterWrap lim ctx in
  let* (resp, err) :=
    request EpSeasonMachineActive [] lctx (GetSeasonMachineActive v4 lctx) in
  match err with
  | Some _ => ret ({| Data := zero; ResponseMeta := zero |}, err)
  | None =>
    let* (parsed, meta, err) :=
      Parse EpSeasonMachineActive resp ParseGetSeasonMachineActiveResponse in
    match err with
    | Some _ => ret ({| Data := zero; ResponseMeta := meta |}, err)
    | None =>
      let* p := deref parsed in
      let* body := deref (v4Client.JSON200 p) in
      ret ({| Data := v4Client.Data body; ResponseMeta := meta |}, None)
    end
  end.

(** *** The six operations as one family *)

Inductive Op : Type :=
| OpRewards
| OpUserRank
| OpUserFollowers
| OpList
| OpMachines
| OpActiveMachine.

(** Payload type of the operation's envelope. *)
Definition DataOf (o : Op) : Type :=
  match o with
  | OpRewards => RewardsData
  | OpUserRank => UserRankData
  | OpUserFollowers => UserFollowersData
  | OpList => ListData
  | OpMachines => MachinesData
  | OpActiveMachine => ActiveMachineData
  end.

#[export] Instance DataOf_zero (o : Op) : Zero (DataOf o) :=
  match o with
  | OpRewards => rewards_zero
  | OpUserRank => userRank_zero
  | OpUserFollowers => userFollowers_zero
  | OpList => list_zero
  | OpMachines => machines_zero
  | OpActiveMachine => activeMachine_zero
  end.

(** The method itself, on a receiver pointer. *)
Definition invoke (o : Op) (recv : loc) (ctx : Ctx) :
    M (Envelope (DataOf o) * error) :=
  match o with
  | OpRewards => Rewards recv ctx
  | OpUserRank => UserRank recv ctx
  | OpUserFollowers => UserFollowers recv ctx
  | OpList => List recv ctx
  | OpMachines => Machines recv ctx
  | OpActiveMachine => ActiveMachine recv ctx
  end.

(** The struct the receiver points to: a [Handle] for the three season
    methods, a [Service] for the others. *)
Definition RecvOf (o : Op) : Type :=
  match o with
  | OpRewards | OpUserRank | OpUserFollowers => Handle
  | OpList | OpMachines | OpActiveMachine => Service
  end.

Definition lookupRecv (o : Op) (st : State) (recv : loc) :
    option (RecvOf o) :=
  match o with
  | OpRewards | OpUserRank | OpUserFollowers => handles st !! recv
  | OpList | OpMachines | OpActiveMachine => services st !! recv
  end.

(** The client value the method reaches through its receiver; it may be
    the nil interface. *)
Definition clientOf (o : Op) : RecvOf o -> service_Client :=
  match o with
  | OpRewards | OpUserRank | OpUserFollowers => client
  | OpList | OpMachines | OpActiveMachine => fun sv => Client (base sv)
  end.

(** The endpoint and the parameters of its one request. *)
Definition endpointOf (o : Op) : Endpoint :=
  match o with
  | OpRewards => EpSeasonRewards
  | OpUserRank => EpSeasonUserRank
  | OpUserFollowers => EpSeasonUserFollowers
  | OpList => EpSeasonList
  | OpMachines => EpSeasonMachines
  | OpActiveMachine => EpSeasonMachineActive
  end.

Definition paramsOf (o : Op) : RecvOf o -> list Z :=
  match o with
  | OpRewards | OpUserRank | OpUserFollowers => fun hv => [id hv]
  | OpList | OpMachines | OpActiveMachine => fun _ => []
  end.

(** The raw call of the generated client that the method issues, on the
    client [c] that its receiver holds. *)
Definition rawCall (o : Op) (c : ClientImpl) :
    RecvOf o -> Ctx -> W -> (HTTPResponse * error) * W :=
  match o with
  | OpRewards => fun hv ctx => GetSeasonRewards (V4 c) ctx (id hv)
  | OpUserRank => fun hv ctx => GetSeasonUserRank (V4 c) ctx (id hv)
  | OpUserFollowers =>
      fun hv ctx => GetSeasonUserFollowers (V4 c) ctx (id hv)
  | OpList => fun _ ctx => GetSeasonList (V4 c) ctx
  | OpMachines => fun _ ctx => GetSeasonMachines (V4 c) ctx
  | OpActiveMachine => fun _ ctx => GetSeasonMachineActive (V4 c) ctx
  end.

(** The parse function the method hands to [common.Parse]. *)
Definition parserOf (o : Op) :
    HTTPResponse -> option (v4Client.Response (DataOf o)) * error :=
  match o with
  | OpRewards => ParseGetSeasonRewardsResponse
  | OpUserRank => ParseGetSeasonUserRankResponse
  | OpUserFollowers => ParseGetSeasonUserFollowersResponse
  | OpList => ParseGetSeasonListResponse
  | OpMachines => ParseGetSeasonMachinesResponse
  | OpActiveMachine => ParseGetSeasonMachineActiveResponse
  end.

(** What [common.Parse] yields for the operation on a raw response. *)
Definition parsedOf (o : Op) (resp : HTTPResponse) :
    option (v4Client.Response (DataOf o)) * common_ResponseMeta * error :=
  common_Parse _ resp (parserOf o).

(** [parsed.JSON200] through the two pointers. *)
Definition json200 {D : Type} (parsed : option (v4Client.Response D)) :
    option (v4Client.JSON200Body D) :=
  match parsed with
  | Some p => v4Client.JSON200 p
  | None => None
  end.

(** Trace bookkeeping. *)
Definition isRequest (e : Event) : bool :=
  match e with EvRequest _ _ _ => true | _ => false end.

Definition isParse (e : Event) : bool :=
  match e with EvParse _ _ => true | _ => false end.

Fixpoint countIf (p : Event -> bool) (tr : list Event) : nat :=
  match tr with
  | [] => 0
  | e :: tr' => (if p e then 1 else 0) + countIf p tr'
  end.

Definition requestCount (tr : list Event) : nat := countIf isRequest tr.

Definition parseCount (tr : list Event) : nat := countIf isParse tr.

(** The state after a call that changed the world to [w] and appended
    [evs] to the trace; the store is as before. *)
Definition after (st : State) (w : W) (evs : list Event) : State :=
  {| world := w; handles := handles st; services := services st;
     trace := trace st ++ evs |}.

(** *** The generic pipeline of the design document

    [execute] is written from the pipeline contract of the design document
    ([execute(ctx, rawCall, decode)], steps 1 to 4), not from the code.

    1. Admission: the context is wrapped by the limiter; if the context is
       cancelled when the limiter returns, the pipeline fails with the
       cancellation error, a zero-valued envelope and zero metadata, and the
       raw call is not issued.
    2. Network invocation: the raw call gets the wrapped context; on a
       transport error the envelope is zero-valued with zero metadata.
    3. Decoding: on a decode error the envelope carries the metadata of the
       decode step and zero data.
    4. Assembly: data and metadata of the decode step, nil error.

    [cancelled ctx w] is the error of the context ([ctx.Err()]) in world
    [w]: [None] while the context is live. *)
Definition inWorld {A : Type} (f : W -> A) : M A :=
  fun st => (Return (f (world st)), st).

Definition execute {D : Type} {D_zero : Zero D}
    (cancelled : Ctx -> W -> error) (limiter : RateLimiter)
    (rawCall : Ctx -> M (HTTPResponse * error))
    (decode : HTTPResponse -> M (D * common_ResponseMeta * error))
    (ctx : Ctx) : M (Envelope D * error) :=
  let* lctx := limiterWrap limiter ctx in
  let* cerr := inWorld (cancelled ctx) in
  match cerr with
  | Some _ => ret ({| Data := zero; ResponseMeta := zero |}, cerr)
  | None =>
    let* (resp, err) := rawCall lctx in
    match err with
    | Some _ => ret ({| Data := zero; ResponseMeta := zero |}, err)
    | None =>
      let* (data, meta, err) := decode resp in
      match err with
      | Some _ => ret ({| Data := zero; ResponseMeta := meta |}, err)
      | None => ret ({| Data := data; ResponseMeta := meta |}, None)
      end
    end
  end.

(** A context that is never reported cancelled: with it, step 1 of
    [execute] is the wrap alone. *)
Definition neverCancelled : Ctx -> W -> error := fun _ _ => None.

(** The arguments with which an operation instantiates [execute]: the
    client behind its receiver, its raw call and its decode step
    ([common.Parse] with the operation's parse function, then the payload
    of the 200 body). *)
Definition loadRecv (o : Op) (recv : loc) : M (RecvOf o) :=
  fun st => deref (lookupRecv o st recv) st.

Definition requestOf (o : Op) (c : ClientImpl) (rv : RecvOf o) (ctx : Ctx) :
    M (HTTPResponse * error) :=
  request (endpointOf o) (paramsOf o rv) ctx (rawCall o c rv ctx).

Definition decodeOf (o : Op) (resp : HTTPResponse) :
    M (DataOf o * common_ResponseMeta * error) :=
  let* (parsed, meta, err) := Parse (endpointOf o) resp (parserOf o) in
  match err with
  | Some _ => ret (zero, meta, err)
  | None =>
    let* p := deref parsed in
    let* body := deref (v4Client.JSON200 p) in
    ret (v4Client.Data body, meta, None)
  end.

Definition pipelineOf (cancelled : Ctx -> W -> error) (o : Op) (recv : loc)
    (ctx : Ctx) : M (Envelope (DataOf o) * error) :=
  let* rv := loadRecv o recv in
  let* c := deref (clientOf o rv) in
  execute cancelled (Limiter c) (requestOf o c rv) (decodeOf o) ctx.

(** What a caller and a test double can observe of a run: the outcome, the
    world, the trace. *)
Definition observe {A : Type} (r : Outcome A * State) :
    Outcome A * W * list Event :=
  (fst r, world (snd r), trace (snd r)).

(** A caller's later activity on the package: any of the six operations on
    any receiver, or another [Season] call.  [runCalls] runs them in order
    and keeps the state, whatever each call returns. *)
Inductive Call : Type :=
| CallOp (o : Op) (recv : loc) (ctx : Ctx)
| CallSeason (s : loc) (id : Z).

Definition runCall (c : Call) (st : State) : State :=
  match c with
  | CallOp o recv ctx => snd (invoke o recv ctx st)
  | CallSeason s id => snd (Season s id st)
  end.

Fixpoint runCalls (cs : list Call) (st : State) : State :=
  match cs with
  | [] => st
  | c :: cs' => runCalls cs' (runCall c st)
  end.

(** The client an operation can call: none when the receiver pointer is
    nil or the receiver holds the nil interface. *)
Definition callableClient (o : Op) (st : State) (recv : loc) :
    option ClientImpl :=
  match lookupRecv o st recv with
  | Some rv => clientOf o rv
  | None => None
  end.

(** *** Bookkeeping for runs of several calls *)

Definition isWrap (e : Event) : bool :=
  match e with EvWrap _ => true | _ => false end.

Definition wrapCount (tr : list Event) : nat := countIf isWrap tr.

(** The methods with a [Handle] receiver. *)
Definition isHandleOp (o : Op) : bool :=
  match o with
  | OpRewards | OpUserRank | OpUserFollowers => true
  | OpList | OpMachines | OpActiveMachine => false
  end.

(** How many of the calls are calls of one of the six operations. *)
Fixpoint opCalls (cs : list Call) : nat :=
  match cs with
  | [] => 0
  | CallOp _ _ _ :: cs' => S (opCalls cs')
  | CallSeason _ _ :: cs' => opCalls cs'
  end.

End Seasons.

Arguments Data {T D} _.
Arguments ResponseMeta {T D} _.

(** ** A stub client

    A concrete instance of the collaborators, as a test double would provide
    it.  The world is the number of raw calls the stub client has received.
    A context is [true] when it is cancelled; the stub limiter returns the
    context as it is, and every raw call on a cancelled context fails with
    [Canceled].  A response is its status code; the season methods answer
    with the season id as status, so that the id selects the path. *)
Module Stub.

Inductive StubErr : Type :=
| Canceled
| ConnRefused
| BadStatus (code : Z).

#[export] Instance types : GoTypes := {|
  W := nat;
  Ctx := bool;
  HTTPResponse := Z;
  Err := StubErr;
  common_ResponseMeta := Z;
  meta_zero := Z_Zero;
  RewardsData := Z;
  UserRankData := Z;
  UserFollowersData := Z;
  ListData := Z;
  MachinesData := Z;
  ActiveMachineData := Z;
  rewards_zero := Z_Zero;
  userRank_zero := Z_Zero;
  userFollowers_zero := Z_Zero;
  list_zero := Z_Zero;
  machines_zero := Z_Zero;
  activeMachine_zero := Z_Zero
|}.

Definition call (ctx : bool) (status : Z) (calls : nat) :
    (Z * option StubErr) * nat :=
  (if ctx then (0%Z, Some Canceled)
   else if (status <? 0)%Z then (0%Z, Some ConnRefused)
   else (status, None),
   S calls).

Definition v4 : V4Client := {|
  GetSeasonRewards := fun ctx id => call ctx id;
  GetSeasonUserRank := fun ctx id => call ctx id;
  GetSeasonUserFollowers := fun ctx id => call ctx id;
  GetSeasonList := fun ctx => call ctx 200;
  GetSeasonMachines := fun ctx => call ctx 200;
  GetSeasonMachineActive := fun ctx => call ctx 200
|}.

Definition limiter : RateLimiter := {| Wrap := fun ctx calls => (ctx, calls) |}.

Definition impl : ClientImpl := {| V4 := v4; Limiter := limiter |}.

Definition theClient : service_Client := Some impl.

(** The error of a stub context. *)
Definition cancelled (ctx : bool) (calls : nat) : option StubErr :=
  if ctx then Some Canceled else None.

(** Status 200 decodes to a body with payload 7, status 204 to a response
    without a 200 body, any other status is a decode error. *)
Definition parser (resp : Z) : option (v4Client.Response Z) * option StubErr :=
  if (resp =? 200)%Z then
    (Some {| v4Client.JSON200 := Some {| v4Client.Data := 7%Z |} |}, None)
  else if (resp =? 204)%Z then
    (Some {| v4Client.JSON200 := None |}, None)
  else (None, Some (BadStatus resp)).

#[export] Instance imports : Imports := {|
  common_Parse := fun A resp parseFn =>
    let (parsed, err) := parseFn resp in (parsed, resp, err);
  ParseGetSeasonRewardsResponse := parser;
  ParseGetSeasonUserRankResponse := parser;
  ParseGetSeasonUserFollowersResponse := parser;
  ParseGetSeasonListResponse := parser;
  ParseGetSeasonMachinesResponse := parser;
  ParseGetSeasonMachineActiveResponse := parser;
  service_NewBase := fun c => {| Client := c |}
|}.

Definition theService : Service := {| base := {| Client := theClient |} |}.

(** A service made with the nil interface, as [NewService(nil)] makes it. *)
Definition nilService : Service := {| base := {| Client := None |} |}.

(** Two services, the one at location 2 without a client, and four handles
    on the stub client: season 200 (success), 404 (decode error), 204 (no
    200 body) and -1 (connection refused). *)
Definition start : State := {|
  world := 0;
  handles :=
    <[1%positive := {| client := theClient; id := 200 |}]>
      (<[2%positive := {| client := theClient; id := 404 |}]>
         (<[3%positive := {| client := theClient; id := 204 |}]>
            (<[4%positive := {| client := theClient; id := (-1) |}]> ∅)));
  services := <[1%positive := theService]> (<[2%positive := nilService]> ∅);
  trace := []
|}.

End Stub.

(** The operations on the stub instance. *)
Abbreviation stubInvoke :=
  (invoke (T := Stub.types) (I := Stub.imports)).
Abbreviation stubSeason := (Season (T := Stub.types)).

(** ** Properties of the operations *)

Section Properties.

Context {T : GoTypes} {I : Imports}.

Implicit Types (o : Op) (recv : positive) (ctx lctx : Ctx) (st : State).
Implicit Types (w : W) (resp : HTTPResponse) (e : Err).

(** Unfolds one operation down to the collaborators' calls and replays the
    results named in the hypotheses. *)
Ltac unfold_op :=
  unfold invoke, pipelineOf, execute, loadRecv, requestOf, decodeOf,
    Rewards, UserRank, UserFollowers, List, Machines, ActiveMachine,
    h_client, h_id, s_base_Client, clientV4, clientLimiter,
    loadHandle, loadService, inWorld, neverCancelled,
    limiterWrap, request, Parse, perform, emit, bind, ret, deref,
    after, parsedOf, json200 in *;
  cbn in *.

Ltac replay :=
  repeat match goal with
         | H : ?lhs = _ |- context [?lhs] => rewrite H; cbn
         end.

Ltac run_op o := destruct o; unfold_op; replay.

Lemma trace_two (tr : list Event) (a b : Event) :
  (tr ++ [a]) ++ [b] = tr ++ [a; b].
Proof. by rewrite <- app_assoc. Qed.

Lemma trace_three (tr : list Event) (a b c : Event) :
  ((tr ++ [a]) ++ [b]) ++ [c] = tr ++ [a; b; c].
Proof. by rewrite <- !app_assoc. Qed.

(** A nil receiver: the first field read panics and nothing has happened. *)
Lemma invoke_nil_receiver o recv ctx st :
  lookupRecv o st recv = None ->
  invoke o recv ctx st = (Panic, st).
Proof. intros Hrecv. by run_op o. Qed.

(** A receiver that holds the nil interface: the method call [V4()] on it
    panics, and nothing has happened. *)
Lemma invoke_nil_client o recv ctx st rv :
  lookupRecv o st recv = Some rv ->
  clientOf o rv = None ->
  invoke o recv ctx st = (Panic, st).
Proof. intros Hrecv Hclient. by run_op o. Qed.

(** The run on a transport error. *)
Lemma invoke_transport_error o recv ctx st rv c lctx w1 resp e w2 :
  lookupRecv o st recv = Some rv ->
  clientOf o rv = Some c ->
  Wrap (Limiter c) ctx (world st) = (lctx, w1) ->
  rawCall o c rv lctx w1 = ((resp, Some e), w2) ->
  invoke o recv ctx st =
    (Return ({| Data := zero; ResponseMeta := zero |}, Some e),
     after st w2 [EvWrap ctx; EvRequest (endpointOf o) lctx (paramsOf o rv)]).
Proof.
  intros Hrecv Hclient Hwrap Hraw.
  run_op o; by rewrite trace_two.
Qed.

(** The run on a decode error. *)
Lemma invoke_decode_error o recv ctx st rv c lctx w1 resp w2 parsed meta e :
  lookupRecv o st recv = Some rv ->
  clientOf o rv = Some c ->
  Wrap (Limiter c) ctx (world st) = (lctx, w1) ->
  rawCall o c rv lctx w1 = ((resp, None), w2) ->
  parsedOf o resp = (parsed, meta, Some e) ->
  invoke o recv ctx st =
    (Return ({| Data := zero; ResponseMeta := meta |}, Some e),
     after st w2 [EvWrap ctx; EvRequest (endpointOf o) lctx (paramsOf o rv);
                  EvParse (endpointOf o) resp]).
Proof.
  intros Hrecv Hclient Hwrap Hraw Hparse.
  run_op o; by rewrite trace_three.
Qed.

(** The run on full success with a 200 body. *)
Lemma invoke_success o recv ctx st rv c lctx w1 resp w2 parsed meta body :
  lookupRecv o st recv = Some rv ->
  clientOf o rv = Some c ->
  Wrap (Limiter c) ctx (world st) = (lctx, w1) ->
  rawCall o c rv lctx w1 = ((resp, None), w2) ->
  parsedOf o resp = (parsed, meta, None) ->
  json200 parsed = Some body ->
  invoke o recv ctx st =
    (Return ({| Data := v4Client.Data body; ResponseMeta := meta |}, None),
     after st w2 [EvWrap ctx; EvRequest (endpointOf o) lctx (paramsOf o rv);
                  EvParse (endpointOf o) resp]).
Proof.
  intros Hrecv Hclient Hwrap Hraw Hparse Hbody.
  destruct parsed as [p|]; [|discriminate].
  run_op o; by rewrite trace_three.
Qed.

(** The run when [common.Parse] reports no error and there is no 200 body:
    the field read through the nil pointer panics. *)
Lemma invoke_nil_body o recv ctx st rv c lctx w1 resp w2 parsed meta :
  lookupRecv o st recv = Some rv ->
  clientOf o rv = Some c ->
  Wrap (Limiter c) ctx (world st) = (lctx, w1) ->
  rawCall o c rv lctx w1 = ((resp, None), w2) ->
  parsedOf o resp = (parsed, meta, None) ->
  json200 parsed = None ->
  invoke o recv ctx st =
    (Panic,
     after st w2 [EvWrap ctx; EvRequest (endpointOf o) lctx (paramsOf o rv);
                  EvParse (endpointOf o) resp]).
Proof.
  intros Hrecv Hclient Hwrap Hraw Hparse Hbody.
  destruct parsed as [p|];
    run_op o; by rewrite trace_three.
Qed.

(** Splits a run of [invoke] into its six paths (transport error, decode
    error, success, no 200 body, nil client, nil receiver) and rewrites it
    to the result of the path. *)
Ltac split_run o recv ctx st :=
  let rv := fresh "rv" in
  let ci := fresh "ci" in
  let lctx := fresh "lctx" in
  let w1 := fresh "w1" in
  let w2 := fresh "w2" in
  let resp := fresh "resp" in
  let parsed := fresh "parsed" in
  let meta := fresh "meta" in
  let body := fresh "body" in
  let e1 := fresh "e1" in
  let e2 := fresh "e2" in
  let Hrecv := fresh "Hrecv" in
  let Hclient := fresh "Hclient" in
  let Hwrap := fresh "Hwrap" in
  let Hraw := fresh "Hraw" in
  let Hparse := fresh "Hparse" in
  let Hbody := fresh "Hbody" in
  destruct (lookupRecv o st recv) as [rv|] eqn:Hrecv;
  [ destruct (clientOf o rv) as [ci|] eqn:Hclient;
    [ destruct (Wrap (Limiter ci) ctx (world st)) as [lctx w1] eqn:Hwrap;
      destruct (rawCall o ci rv lctx w1) as [[resp [e1|]] w2] eqn:Hraw;
      [ rewrite (invoke_transport_error o recv ctx st rv ci lctx w1 resp e1
                   w2 Hrecv Hclient Hwrap Hraw) in *
      | destruct (parsedOf o resp) as [[parsed meta] [e2|]] eqn:Hparse;
        [ rewrite (invoke_decode_error o recv ctx st rv ci lctx w1 resp w2
                     parsed meta e2 Hrecv Hclient Hwrap Hraw Hparse) in *
        | destruct (json200 parsed) as [body|] eqn:Hbody;
          [ rewrite (invoke_success o recv ctx st rv ci lctx w1 resp w2
                       parsed meta body Hrecv Hclient Hwrap Hraw Hparse
                       Hbody) in *
          | rewrite (invoke_nil_body o recv ctx st rv ci lctx w1 resp w2
                       parsed meta Hrecv Hclient Hwrap Hraw Hparse Hbody)
              in * ] ] ]
    | rewrite (invoke_nil_client o recv ctx st rv Hrecv Hclient) in * ]
  | rewrite (invoke_nil_receiver o recv ctx st Hrecv) in * ].

(** Two equations for the same call name the same result. *)
Ltac same_results :=
  repeat (simplify_eq;
          match goal with
          | H1 : ?lhs = _, H2 : ?lhs = _ |- _ => rewrite H1 in H2
          end);
  simplify_eq.

Lemma after_nothing st : after st (world st) [] = st.
Proof. destruct st. unfold after. cbn. by rewrite app_nil_r. Qed.

(** Whatever the path, a run changes the world and extends the trace, and
    leaves the store of handles and services as it was. *)
Lemma invoke_frame o recv ctx st :
  exists w evs, snd (invoke o recv ctx st) = after st w evs.
Proof.
  split_run o recv ctx st; cbn; eauto;
    exists (world st), []; by rewrite after_nothing.
Qed.

Lemma countIf_app (p : Event -> bool) (tr evs : list Event) :
  countIf p (tr ++ evs) = countIf p tr + countIf p evs.
Proof.
  induction tr as [|a tr IH]; cbn; [done|].
  rewrite IH. lia.
Qed.

Lemma requestCount_app (tr evs : list Event) :
  requestCount (tr ++ evs) = requestCount tr + requestCount evs.
Proof. apply countIf_app. Qed.

Lemma parseCount_app (tr evs : list Event) :
  parseCount (tr ++ evs) = parseCount tr + parseCount evs.
Proof. apply countIf_app. Qed.

(** C1. For every operation and every call that returns a non-nil error,
    the [Data] field of the returned envelope is the zero value of the
    operation's payload type, on the transport-error branch and on the
    decode-error branch alike. *)
Theorem error_implies_zero_data o recv ctx st env e st' :
  invoke o recv ctx st = (Return (env, Some e), st') ->
  Data env = zero.
Proof.
  intros Hrun.
  split_run o recv ctx st; by same_results.
Qed.

(** C2. If the raw network call returns a non-nil error, the operation
    returns that same error and an envelope whose [ResponseMeta] is the zero
    value; the run leaves exactly the wrap and the request in the trace, so
    [common.Parse] is not called. *)
Theorem transport_error_skips_parse o recv ctx st rv c lctx w1 resp e w2 :
  lookupRecv o st recv = Some rv ->
  clientOf o rv = Some c ->
  Wrap (Limiter c) ctx (world st) = (lctx, w1) ->
  rawCall o c rv lctx w1 = ((resp, Some e), w2) ->
  exists env st',
    invoke o recv ctx st = (Return (env, Some e), st') /\
    ResponseMeta env = zero /\
    trace st' =
      trace st ++ [EvWrap ctx; EvRequest (endpointOf o) lctx (paramsOf o rv)] /\
    parseCount (trace st') = parseCount (trace st).
Proof.
  intros Hrecv Hclient Hwrap Hraw.
  eexists _, _. split; [by eapply invoke_transport_error|].
  unfold after; cbn [trace ResponseMeta]. split_and!; [done..|].
  rewrite parseCount_app. cbn. lia.
Qed.

(** C3. If the network call succeeds and [common.Parse] returns a non-nil
    error, the operation returns that error and an envelope whose
    [ResponseMeta] is exactly the metadata that [common.Parse] produced from
    the raw response. *)
Theorem decode_error_keeps_meta o recv ctx st rv c lctx w1 resp w2 parsed meta e :
  lookupRecv o st recv = Some rv ->
  clientOf o rv = Some c ->
  Wrap (Limiter c) ctx (world st) = (lctx, w1) ->
  rawCall o c rv lctx w1 = ((resp, None), w2) ->
  parsedOf o resp = (parsed, meta, Some e) ->
  exists env st',
    invoke o recv ctx st = (Return (env, Some e), st') /\
    ResponseMeta env = meta.
Proof.
  intros Hrecv Hclient Hwrap Hraw Hparse.
  eexists _, _. split; [by eapply invoke_decode_error|done].
Qed.

(** C4, as the code has it.  If the network call and [common.Parse] both
    succeed and the parse result has a 200 body ([parsed] and
    [parsed.JSON200] are non-nil), the operation returns a nil error and an
    envelope whose [Data] is the decoded payload [parsed.JSON200.Data] and
    whose [ResponseMeta] is the metadata that [common.Parse] produced. *)
Theorem success_returns_payload o recv ctx st rv c lctx w1 resp w2 parsed meta body :
  lookupRecv o st recv = Some rv ->
  clientOf o rv = Some c ->
  Wrap (Limiter c) ctx (world st) = (lctx, w1) ->
  rawCall o c rv lctx w1 = ((resp, None), w2) ->
  parsedOf o resp = (parsed, meta, None) ->
  json200 parsed = Some body ->
  exists st',
    invoke o recv ctx st =
      (Return ({| Data := v4Client.Data body; ResponseMeta := meta |}, None),
       st').
Proof.
  intros Hrecv Hclient Hwrap Hraw Hparse Hbody.
  eexists. by eapply invoke_success.
Qed.

(** C5, as the code has it.  Whatever the context, cancelled or not, an
    operation on a valid receiver that holds a client issues its raw call
    exactly once, with the context that the limiter returned; the operation
    itself makes no cancellation check.  If the raw call fails on that
    context, its error is what the operation returns. *)
Theorem request_issued_for_every_context o recv ctx st rv c lctx w1 :
  lookupRecv o st recv = Some rv ->
  clientOf o rv = Some c ->
  Wrap (Limiter c) ctx (world st) = (lctx, w1) ->
  requestCount (trace (snd (invoke o recv ctx st))) =
    S (requestCount (trace st)) /\
  In (EvRequest (endpointOf o) lctx (paramsOf o rv))
     (trace (snd (invoke o recv ctx st))) /\
  forall resp e w2,
    rawCall o c rv lctx w1 = ((resp, Some e), w2) ->
    fst (invoke o recv ctx st) =
      Return ({| Data := zero; ResponseMeta := zero |}, Some e).
Proof.
  intros Hrecv Hclient Hwrap.
  split_and!.
  - split_run o recv ctx st; same_results; unfold after; cbn [snd trace];
      rewrite requestCount_app; cbn; lia.
  - split_run o recv ctx st; same_results; unfold after; cbn [snd trace];
      apply in_or_app; right; cbn; auto.
  - intros resp e w2 Hraw.
    by rewrite (invoke_transport_error o recv ctx st rv c lctx w1 resp e w2).
Qed.

(** The store is the same after any run. *)
Lemma invoke_handles o recv ctx st :
  handles (snd (invoke o recv ctx st)) = handles st.
Proof. destruct (invoke_frame o recv ctx st) as (w & evs & ->). done. Qed.

Lemma invoke_services o recv ctx st :
  services (snd (invoke o recv ctx st)) = services st.
Proof. destruct (invoke_frame o recv ctx st) as (w & evs & ->). done. Qed.

(** [Season] on a valid service. *)
Lemma Season_run s id st sv :
  services st !! s = Some sv ->
  Season s id st =
    (Return (fresh (dom (handles st))),
     {| world := world st;
        handles :=
          <[fresh (dom (handles st)) :=
              {| client := Client (base sv); id := id |}]> (handles st);
        services := services st;
        trace := trace st |}).
Proof.
  intros Hs. unfold Season, s_base_Client, loadService, allocHandle, bind,
    ret, deref. by rewrite Hs.
Qed.

(** [NewService] stores the base that [service.NewBase] builds, and a
    handle made from the new service holds that base's client. *)
Lemma NewService_then_Season (c : service_Client) (id : Z) st :
  exists s st1 h st2,
    NewService c st = (Return s, st1) /\
    services st1 !! s = Some {| base := service_NewBase c |} /\
    Season s id st1 = (Return h, st2) /\
    handles st2 !! h =
      Some {| client := Client (service_NewBase c); id := id |}.
Proof.
  eexists _, _, _, _. split; [reflexivity|].
  assert (Hs : services
                 {| world := world st; handles := handles st;
                    services :=
                      <[fresh (dom (services st)) :=
                          {| base := service_NewBase c |}]> (services st);
                    trace := trace st |}
               !! fresh (dom (services st))
             = Some {| base := service_NewBase c |}).
  { cbn. by rewrite lookup_insert_eq. }
  split; [exact Hs|].
  split; [by apply Season_run|].
  cbn. by rewrite lookup_insert_eq.
Qed.

(** A handle that exists is not touched by a later call. *)
Lemma runCall_keeps_handle (c : Call) st (h : positive) (hv : Handle) :
  handles st !! h = Some hv ->
  handles (runCall c st) !! h = Some hv.
Proof.
  intros Hh. destruct c as [o recv ctx|s id]; cbn.
  - by rewrite invoke_handles.
  - destruct (services st !! s) as [sv|] eqn:Hs.
    + rewrite (Season_run s id st sv Hs). cbn.
      rewrite lookup_insert_ne; [done|].
      intros Heq.
      apply (is_fresh (dom (handles st))).
      rewrite Heq. apply elem_of_dom. by eexists.
    + unfold Season, s_base_Client, loadService, allocHandle, bind, ret,
        deref. by rewrite Hs.
Qed.

Lemma runCalls_keep_handle (cs : list Call) st (h : positive) (hv : Handle) :
  handles st !! h = Some hv ->
  handles (runCalls cs st) !! h = Some hv.
Proof.
  revert st. induction cs as [|c cs IH]; intros st Hh; cbn; [done|].
  apply IH. by apply runCall_keeps_handle.
Qed.

(** C6. For every integer [id], [Season] on a service returns a new handle
    that holds exactly that id and the client of the service's base, and no
    later sequence of calls changes either field of the handle. *)
Theorem Season_handle_fixed s id st sv :
  services st !! s = Some sv ->
  exists h st',
    Season s id st = (Return h, st') /\
    handles st !! h = None /\
    handles st' !! h = Some {| client := Client (base sv); id := id |} /\
    services st' = services st /\
    forall cs : list Call,
      handles (runCalls cs st') !! h =
        Some {| client := Client (base sv); id := id |}.
Proof.
  intros Hs.
  eexists _, _. split; [by apply Season_run|].
  assert (Hnew : handles st !! fresh (dom (handles st)) = None).
  { apply not_elem_of_dom, is_fresh. }
  split_and!; [done| |done|].
  - cbn. by rewrite lookup_insert_eq.
  - intros cs. apply runCalls_keep_handle. cbn. by rewrite lookup_insert_eq.
Qed.

(** C7. The error of the failing step reaches the caller unchanged: the
    raw call's error on a transport failure, the error of [common.Parse] on
    a decode failure.  The raw call is issued once and [common.Parse] at
    most once, so nothing is retried; and a nil error is returned only if
    neither step failed, so nothing is swallowed. *)
Theorem errors_returned_unchanged o recv ctx st rv c lctx w1 resp rerr w2 :
  lookupRecv o st recv = Some rv ->
  clientOf o rv = Some c ->
  Wrap (Limiter c) ctx (world st) = (lctx, w1) ->
  rawCall o c rv lctx w1 = ((resp, rerr), w2) ->
  (forall e, rerr = Some e ->
     exists env, fst (invoke o recv ctx st) = Return (env, Some e)) /\
  (forall e, rerr = None -> snd (parsedOf o resp) = Some e ->
     exists env, fst (invoke o recv ctx st) = Return (env, Some e)) /\
  (forall env, fst (invoke o recv ctx st) = Return (env, None) ->
     rerr = None /\ snd (parsedOf o resp) = None) /\
  requestCount (trace (snd (invoke o recv ctx st))) =
    S (requestCount (trace st)) /\
  parseCount (trace (snd (invoke o recv ctx st))) <=
    S (parseCount (trace st)).
Proof.
  intros Hrecv Hclient Hwrap Hraw.
  split_run o recv ctx st; same_results; cbn [fst snd];
    unfold after; cbn [trace];
    rewrite requestCount_app, parseCount_app; cbn;
    (split_and!;
       [ intros;
         repeat match goal with
                | H : parsedOf _ _ = _ |- _ => rewrite H in *; clear H
                end;
         cbn in *; simplify_eq; eauto ..
       | lia | lia ]).
Qed.

(** When the context is live as the limiter returns, the admission rule of
    [execute] lets the run through: the pipeline is the one without the
    check. *)
Lemma pipelineOf_live (cancelled : Ctx -> W -> error) o recv ctx st :
  (forall rv c lctx w1,
     lookupRecv o st recv = Some rv ->
     clientOf o rv = Some c ->
     Wrap (Limiter c) ctx (world st) = (lctx, w1) ->
     cancelled ctx w1 = None) ->
  pipelineOf cancelled o recv ctx st = pipelineOf neverCancelled o recv ctx st.
Proof.
  intros Hlive.
  unfold pipelineOf, execute, loadRecv, limiterWrap, inWorld, neverCancelled,
    perform, emit, bind, ret, deref.
  destruct (lookupRecv o st recv) as [rv|] eqn:Hrecv; [|done].
  destruct (clientOf o rv) as [c|] eqn:Hclient; [|done].
  cbn.
  destruct (Wrap (Limiter c) ctx (world st)) as [lctx w1] eqn:Hwrap.
  cbn. by rewrite (Hlive rv c lctx w1 eq_refl Hclient Hwrap).
Qed.

(** The operations are the pipeline without the admission check. *)
Lemma invoke_unchecked o recv ctx st :
  invoke o recv ctx st = pipelineOf neverCancelled o recv ctx st.
Proof.
  destruct o; unfold_op;
    repeat (case_match; simplify_eq; cbn in *; try done).
Qed.

(** C8, as the code has it.  Each of the six operations is one and the
    same generic pipeline, instantiated with the operation's receiver, raw
    call and parse function: wrap the context with the limiter, invoke the
    raw call, parse on transport success, assemble the envelope.  That
    pipeline is [execute] without the cancellation check of its admission
    step; an operation agrees with [execute] itself, in result and in final
    state, on every run in which the context is live when the limiter
    returns. *)
Theorem invoke_is_execute_without_admission o recv ctx st :
  invoke o recv ctx st = pipelineOf neverCancelled o recv ctx st /\
  forall cancelled : Ctx -> W -> error,
    (forall rv c lctx w1,
       lookupRecv o st recv = Some rv ->
       clientOf o rv = Some c ->
       Wrap (Limiter c) ctx (world st) = (lctx, w1) ->
       cancelled ctx w1 = None) ->
    invoke o recv ctx st = pipelineOf cancelled o recv ctx st.
Proof.
  split; [apply invoke_unchecked|].
  intros cancelled Hlive.
  rewrite (pipelineOf_live cancelled o recv ctx st Hlive).
  apply invoke_unchecked.
Qed.

(** C9. When the raw call succeeds and [common.Parse] returns a nil error,
    the operation panics exactly when there is no 200 body to read [Data]
    from: a nil [JSON200] makes it panic, and it is panic-free only if
    [JSON200] is non-nil. *)
Theorem panics_iff_nil_body o recv ctx st rv c lctx w1 resp w2 parsed meta :
  lookupRecv o st recv = Some rv ->
  clientOf o rv = Some c ->
  Wrap (Limiter c) ctx (world st) = (lctx, w1) ->
  rawCall o c rv lctx w1 = ((resp, None), w2) ->
  parsedOf o resp = (parsed, meta, None) ->
  fst (invoke o recv ctx st) = Panic <-> json200 parsed = None.
Proof.
  intros Hrecv Hclient Hwrap Hraw Hparse.
  split_run o recv ctx st; same_results; cbn [fst]; split;
    intros; congruence.
Qed.

(** C10. No operation changes its receiver: after any call the store of
    handles and the store of services are what they were, so the receiver
    still holds the same id and the same client and a repeated call finds
    the same receiver. *)
Theorem invoke_keeps_receiver o recv ctx st :
  handles (snd (invoke o recv ctx st)) = handles st /\
  services (snd (invoke o recv ctx st)) = services st /\
  lookupRecv o (snd (invoke o recv ctx st)) recv = lookupRecv o st recv.
Proof.
  pose proof (invoke_handles o recv ctx st) as Hh.
  pose proof (invoke_services o recv ctx st) as Hs.
  split_and!; [done..|].
  destruct o; unfold lookupRecv; by rewrite ?Hh, ?Hs.
Qed.

(** ** Further properties of the package *)

Lemma wrapCount_app (tr evs : list Event) :
  wrapCount (tr ++ evs) = wrapCount tr + wrapCount evs.
Proof. apply countIf_app. Qed.

(** [Season] on a nil service. *)
Lemma Season_nil s id st :
  services st !! s = None ->
  Season s id st = (Panic, st).
Proof.
  intros Hs. unfold Season, s_base_Client, loadService, allocHandle, bind,
    ret, deref. by rewrite Hs.
Qed.

(** Whatever [Season] does, it does to the store of handles only. *)
Lemma Season_frame s id st :
  exists hs,
    snd (Season s id st) =
      {| world := world st; handles := hs; services := services st;
         trace := trace st |}.
Proof.
  destruct (services st !! s) as [sv|] eqn:Hs.
  - rewrite (Season_run s id st sv Hs). cbn. eauto.
  - rewrite (Season_nil s id st Hs). cbn. exists (handles st). by destruct st.
Qed.

(** [Season] panics exactly when the service pointer is nil (the read of
    [s.base] fails); a panicking [Season] has created no handle and left the
    state as it was. *)
Theorem Season_panics_iff_nil_service s id st :
  (services st !! s = None <-> fst (Season s id st) = Panic) /\
  (fst (Season s id st) = Panic -> snd (Season s id st) = st).
Proof.
  destruct (services st !! s) as [sv|] eqn:Hs.
  - rewrite (Season_run s id st sv Hs). cbn. split; [split|]; done.
  - rewrite (Season_nil s id st Hs). cbn. split; [split|]; done.
Qed.

(** [Season] talks to nobody: it issues no request, asks nothing of the
    limiter and parses nothing, so the world, the trace and the services
    are the same after it, whether it returns or panics. *)
Theorem Season_is_silent s id st :
  world (snd (Season s id st)) = world st /\
  trace (snd (Season s id st)) = trace st /\
  services (snd (Season s id st)) = services st.
Proof. destruct (Season_frame s id st) as [hs ->]. done. Qed.

(** An operation leaves no trace exactly when it has no client to call,
    because its receiver pointer is nil or its receiver holds the nil
    interface: then it panics on the field read or on [V4()], before the
    limiter or the client is touched.  With a client to call the trace
    grows. *)
Theorem no_client_iff_nothing_happens o recv ctx st :
  (callableClient o st recv = None <->
   trace (snd (invoke o recv ctx st)) = trace st) /\
  (callableClient o st recv = None ->
   invoke o recv ctx st = (Panic, st)).
Proof.
  unfold callableClient.
  split; [split|].
  - intros Hnone.
    split_run o recv ctx st; done.
  - intros Htrace.
    split_run o recv ctx st; [..|done|done];
      unfold after in Htrace; cbn [snd trace] in Htrace;
      apply (f_equal length) in Htrace;
      rewrite length_app in Htrace; cbn in Htrace; lia.
  - intros Hnone.
    split_run o recv ctx st; done.
Qed.

(** A panic of an operation that has a client to call comes late: by then
    the request has been issued and [common.Parse] has been called, once
    each. *)
Theorem panic_follows_request_and_parse o recv ctx st rv c :
  lookupRecv o st recv = Some rv ->
  clientOf o rv = Some c ->
  fst (invoke o recv ctx st) = Panic ->
  requestCount (trace (snd (invoke o recv ctx st))) =
    S (requestCount (trace st)) /\
  parseCount (trace (snd (invoke o recv ctx st))) =
    S (parseCount (trace st)).
Proof.
  intros Hrecv Hclient Hpanic.
  split_run o recv ctx st; same_results; cbn [fst] in Hpanic;
    try discriminate.
  unfold after; cbn [snd trace].
  rewrite requestCount_app, parseCount_app. cbn. lia.
Qed.

(** The steps of a run come in order and feed one another: the limiter
    sees the caller's context, the raw call the context the limiter
    returned, and [common.Parse], called only when the raw call reported no
    error, the response the raw call returned.  The world after the run is
    the one the raw call left. *)
Theorem run_steps_in_order o recv ctx st rv c lctx w1 resp rerr w2 :
  lookupRecv o st recv = Some rv ->
  clientOf o rv = Some c ->
  Wrap (Limiter c) ctx (world st) = (lctx, w1) ->
  rawCall o c rv lctx w1 = ((resp, rerr), w2) ->
  world (snd (invoke o recv ctx st)) = w2 /\
  trace (snd (invoke o recv ctx st)) =
    trace st
    ++ [EvWrap ctx; EvRequest (endpointOf o) lctx (paramsOf o rv)]
    ++ match rerr with
       | Some _ => []
       | None => [EvParse (endpointOf o) resp]
       end.
Proof.
  intros Hrecv Hclient Hwrap Hraw.
  split_run o recv ctx st; same_results; done.
Qed.

(** [NewService] always returns, a pointer that was not in use; the new
    service holds the base that [service.NewBase] built from the client.
    Every service that existed is still there unchanged, and handles, world
    and trace are untouched. *)
Theorem NewService_adds_one_service (c : service_Client) st :
  exists s st',
    NewService c st = (Return s, st') /\
    services st !! s = None /\
    services st' !! s = Some {| base := service_NewBase c |} /\
    (forall s', s' <> s -> services st' !! s' = services st !! s') /\
    handles st' = handles st /\ world st' = world st /\ trace st' = trace st.
Proof.
  eexists _, _. split; [reflexivity|]. cbn.
  split_and!; [| |intros s' Hne|done..].
  - apply not_elem_of_dom, is_fresh.
  - by rewrite lookup_insert_eq.
  - by rewrite lookup_insert_ne.
Qed.

(** [Season] on a valid service adds exactly one handle, at a pointer that
    was not in use, and overwrites none: every other pointer reads as
    before. *)
Theorem Season_adds_one_handle s id st sv :
  services st !! s = Some sv ->
  exists h st',
    Season s id st = (Return h, st') /\
    (dom (handles st') = {[h]} ∪ dom (handles st)) /\
    (h ∉ dom (handles st)) /\
    size (handles st') = S (size (handles st)) /\
    forall h', h' <> h -> handles st' !! h' = handles st !! h'.
Proof.
  intros Hs.
  eexists _, _. split; [by apply Season_run|]. cbn.
  assert (Hnew : handles st !! fresh (dom (handles st)) = None).
  { apply not_elem_of_dom, is_fresh. }
  split_and!.
  - by rewrite dom_insert_L.
  - apply is_fresh.
  - by apply map_size_insert_None.
  - intros h' Hne. by rewrite lookup_insert_ne.
Qed.

(** Two [Season] calls on one service give two distinct handles, also for
    the same id; after the second call both are in the store, each with its
    own id, and both hold the one client of the service's base. *)
Theorem Season_twice_shares_client s id1 id2 st sv h1 st1 h2 st2 :
  services st !! s = Some sv ->
  Season s id1 st = (Return h1, st1) ->
  Season s id2 st1 = (Return h2, st2) ->
  h1 <> h2 /\
  handles st2 !! h1 = Some {| client := Client (base sv); id := id1 |} /\
  handles st2 !! h2 = Some {| client := Client (base sv); id := id2 |}.
Proof.
  intros Hs Hone Htwo.
  rewrite (Season_run s id1 st sv Hs) in Hone. simplify_eq.
  cbn in Htwo.
  match type of Htwo with
  | Season _ _ ?st1 = _ =>
      assert (Hs1 : services st1 !! s = Some sv) by exact Hs;
      rewrite (Season_run s id2 st1 sv Hs1) in Htwo
  end.
  simplify_eq. cbn.
  set (h1 := fresh (dom (handles st))).
  set (hs1 := <[h1 := {| client := Client (base sv); id := id1 |}]>
                (handles st)).
  assert (Hin : h1 ∈ dom hs1).
  { apply elem_of_dom. exists {| client := Client (base sv); id := id1 |}.
    apply lookup_insert_eq. }
  assert (Hne : fresh (dom hs1) <> h1).
  { intros Heq. apply (is_fresh (dom hs1)). by rewrite Heq. }
  split_and!.
  - by intros Heq.
  - rewrite lookup_insert_ne; [|done]. apply lookup_insert_eq.
  - apply lookup_insert_eq.
Qed.

(** [Season(id)] on a service that holds a client, followed by one of the
    handle's methods: the method asks the limiter of the service's client,
    and its one request goes to the method's endpoint with exactly [id] as
    parameter. *)
Theorem Season_then_method_sends_id o s id st sv c h st1 ctx lctx w1 :
  isHandleOp o = true ->
  services st !! s = Some sv ->
  Client (base sv) = Some c ->
  Season s id st = (Return h, st1) ->
  Wrap (Limiter c) ctx (world st) = (lctx, w1) ->
  exists evs,
    trace (snd (invoke o h ctx st1)) =
      trace st ++ [EvWrap ctx; EvRequest (endpointOf o) lctx [id]] ++ evs /\
    length evs <= 1.
Proof.
  intros Hop Hs Hc Hseason Hwrap.
  rewrite (Season_run s id st sv Hs) in Hseason. simplify_eq.
  set (hv := {| client := Client (base sv); id := id |}).
  set (h := fresh (dom (handles st))).
  set (st1 := {| world := world st; handles := <[h := hv]> (handles st);
                 services := services st; trace := trace st |}).
  assert (Hh : handles st1 !! h = Some hv) by (cbn; apply lookup_insert_eq).
  assert (Hcl : client hv = Some c) by exact Hc.
  clear Hc.
  assert (Hw : Wrap (Limiter c) ctx (world st1) = (lctx, w1))
    by exact Hwrap.
  assert (Ht : trace st1 = trace st) by done.
  clearbody st1 h.
  destruct o; try discriminate.
  all: match goal with
       | |- context [invoke ?o _ _ _] =>
           change (lookupRecv o st1 h = Some hv) in Hh;
           change (clientOf o hv = Some c) in Hcl;
           split_run o h ctx st1; same_results;
           unfold after; cbn [snd trace]; rewrite Ht;
           eexists; (split; [reflexivity|cbn; lia])
       end.
Qed.

(** One call adds at most one request, with it one wrap, and no more
    parses than requests. *)
Lemma runCall_counts (c : Call) st :
  exists n,
    n <= opCalls [c] /\
    requestCount (trace (runCall c st)) = requestCount (trace st) + n /\
    wrapCount (trace (runCall c st)) = wrapCount (trace st) + n /\
    parseCount (trace (runCall c st)) <= parseCount (trace st) + n.
Proof.
  destruct c as [o recv ctx|s id]; cbn [runCall opCalls].
  - split_run o recv ctx st; unfold after; cbn [snd trace];
      rewrite ?requestCount_app, ?wrapCount_app, ?parseCount_app;
      unfold requestCount, wrapCount, parseCount; cbn;
      first [ exists 1; lia | exists 0; lia ].
  - destruct (Season_frame s id st) as [hs ->]. cbn [trace].
    exists 0. lia.
Qed.

(** Over any sequence of calls the package issues at most one request per
    operation call and none for [Season]: nothing is retried.  Every
    request goes with exactly one call of the limiter, and [common.Parse] is
    called at most once per request. *)
Theorem runCalls_one_request_per_call (cs : list Call) st :
  exists n,
    n <= opCalls cs /\
    requestCount (trace (runCalls cs st)) = requestCount (trace st) + n /\
    wrapCount (trace (runCalls cs st)) = wrapCount (trace st) + n /\
    parseCount (trace (runCalls cs st)) <= parseCount (trace st) + n.
Proof.
  revert st. induction cs as [|c cs IH]; intros st.
  - exists 0. cbn. lia.
  - destruct (runCall_counts c st) as (n1 & Hn1 & Hr1 & Hw1 & Hp1).
    destruct (IH (runCall c st)) as (n2 & Hn2 & Hr2 & Hw2 & Hp2).
    exists (n1 + n2). cbn [runCalls].
    assert (Hops : opCalls (c :: cs) = opCalls [c] + opCalls cs)
      by (destruct c; reflexivity).
    lia.
Qed.

(** A receiver that is valid stays valid, with the same struct, across any
    operation call. *)
Lemma invoke_keeps_lookup o' recv' ctx st o recv :
  lookupRecv o (snd (invoke o' recv' ctx st)) recv = lookupRecv o st recv.
Proof.
  pose proof (invoke_handles o' recv' ctx st) as Hh.
  pose proof (invoke_services o' recv' ctx st) as Hs.
  destruct o; unfold lookupRecv; by rewrite ?Hh, ?Hs.
Qed.

(** Calling one method again and again on one valid receiver that holds a
    client issues one request per call, whatever the earlier calls
    returned: no result is cached, and a failed or panicking call does not
    stop later ones from reaching the client. *)
Theorem repeated_calls_each_issue_request o recv rv c (ctxs : list Ctx) st :
  lookupRecv o st recv = Some rv ->
  clientOf o rv = Some c ->
  requestCount (trace (runCalls (map (CallOp o recv) ctxs) st)) =
    requestCount (trace st) + length ctxs.
Proof.
  intros Hrecv Hclient. revert st Hrecv.
  induction ctxs as [|ctx ctxs IH]; intros st Hrecv.
  - cbn. lia.
  - cbn [map runCalls runCall length].
    rewrite IH by (by rewrite invoke_keeps_lookup).
    assert (Hone : requestCount (trace (snd (invoke o recv ctx st))) =
                     S (requestCount (trace st))).
    { split_run o recv ctx st; same_results; unfold after; cbn [snd trace];
        rewrite requestCount_app; cbn; lia. }
    lia.
Qed.

(** What an operation returns, and the world it leaves, depend on the
    struct behind the receiver, the context and the world only: neither the
    pointer, nor the other handles and services in the store, nor the
    history in the trace matter.  Two handles with the same client and id
    are interchangeable. *)
Theorem outcome_depends_on_receiver_value o recv1 recv2 ctx st1 st2 :
  lookupRecv o st1 recv1 = lookupRecv o st2 recv2 ->
  world st1 = world st2 ->
  fst (invoke o recv1 ctx st1) = fst (invoke o recv2 ctx st2) /\
  world (snd (invoke o recv1 ctx st1)) = world (snd (invoke o recv2 ctx st2)).
Proof.
  intros Hrecv Hworld.
  split_run o recv1 ctx st1; symmetry in Hrecv;
    try rewrite Hworld in Hwrap.
  - by erewrite (invoke_transport_error o recv2 ctx st2) by eassumption.
  - by erewrite (invoke_decode_error o recv2 ctx st2) by eassumption.
  - by erewrite (invoke_success o recv2 ctx st2) by eassumption.
  - by erewrite (invoke_nil_body o recv2 ctx st2) by eassumption.
  - by erewrite (invoke_nil_client o recv2 ctx st2) by eassumption.
  - by rewrite (invoke_nil_receiver o recv2 ctx st2 Hrecv).
Qed.


(** The operations make up no error of their own: an error that comes back
    is the one the raw call returned, with zero metadata, or else the raw
    call reported none and it is the one [common.Parse] returned, with the
    metadata of [common.Parse]. *)
Theorem error_comes_from_a_step o recv ctx st env e st' :
  invoke o recv ctx st = (Return (env, Some e), st') ->
  exists rv c lctx w1 resp rerr w2,
    lookupRecv o st recv = Some rv /\
    clientOf o rv = Some c /\
    Wrap (Limiter c) ctx (world st) = (lctx, w1) /\
    rawCall o c rv lctx w1 = ((resp, rerr), w2) /\
    ((rerr = Some e /\ ResponseMeta env = zero) \/
     (rerr = None /\
      exists parsed, parsedOf o resp = (parsed, ResponseMeta env, Some e))).
Proof.
  intros Hrun.
  split_run o recv ctx st; simplify_eq;
    eexists _, _, _, _, _, _, _; (split_and!; [done..|]).
  - left. done.
  - right. split; [done|]. by eexists.
Qed.

End Properties.

(** ** The stub client at work

    Concrete runs against the stub: each theorem above that carries
    hypotheses is applied to a run that meets them. *)

Import Stub.

Example Rewards_season_200 :
  observe (stubInvoke OpRewards 1%positive false start) =
    (Return ({| Data := 7%Z; ResponseMeta := 200%Z |}, None), 1,
     [EvWrap false; EvRequest EpSeasonRewards false [200%Z];
      EvParse EpSeasonRewards 200%Z]).
Proof. reflexivity. Qed.

Example Rewards_season_404 :
  observe (stubInvoke OpRewards 2%positive false start) =
    (Return ({| Data := 0%Z; ResponseMeta := 404%Z |}, Some (BadStatus 404)),
     1,
     [EvWrap false; EvRequest EpSeasonRewards false [404%Z];
      EvParse EpSeasonRewards 404%Z]).
Proof. reflexivity. Qed.

Example List_refused_receiver :
  observe (stubInvoke OpList 7%positive false start) = (Panic, 0, []).
Proof. reflexivity. Qed.

(** A handle made from the service without a client: [Season] returns
    it, and a method on it panics before anything is called. *)
Example UserRank_on_nil_client :
  fst (stubSeason 2%positive 9 start) = Return 5%positive /\
  observe (stubInvoke OpUserRank 5%positive false
             (snd (stubSeason 2%positive 9 start))) = (Panic, 0, []).
Proof. split; reflexivity. Qed.

Lemma error_implies_zero_data_witness :
  Data ({| Data := 0%Z; ResponseMeta := 0%Z |} : Envelope (DataOf OpRewards))
    = zero.
Proof.
  apply (error_implies_zero_data (T := types) (I := imports) OpRewards 4%positive false start _
           ConnRefused (snd (stubInvoke OpRewards 4%positive false start))).
  reflexivity.
Defined.

Lemma transport_error_skips_parse_witness :
  exists env st',
    stubInvoke OpRewards 4%positive false start =
      (Return (env, Some ConnRefused), st') /\
    ResponseMeta env = zero /\
    trace st' =
      trace start ++ [EvWrap false; EvRequest EpSeasonRewards false [(-1)%Z]] /\
    parseCount (trace st') = parseCount (trace start).
Proof.
  apply (transport_error_skips_parse (T := types) (I := imports) OpRewards 4%positive false start
           {| client := theClient; id := (-1) |} impl false 0 0%Z ConnRefused 1);
    reflexivity.
Defined.

Lemma decode_error_keeps_meta_witness :
  exists env st',
    stubInvoke OpRewards 2%positive false start =
      (Return (env, Some (BadStatus 404)), st') /\
    ResponseMeta env = 404%Z.
Proof.
  apply (decode_error_keeps_meta (T := types) (I := imports) OpRewards 2%positive false start
           {| client := theClient; id := 404 |} impl false 0 404%Z 1 None);
    reflexivity.
Defined.

Lemma success_returns_payload_witness :
  exists st',
    stubInvoke OpRewards 1%positive false start =
      (Return ({| Data := 7%Z; ResponseMeta := 200%Z |}, None), st').
Proof.
  apply (success_returns_payload (T := types) (I := imports) OpRewards 1%positive false start
           {| client := theClient; id := 200 |} impl false 0 200%Z 1
           (Some {| v4Client.JSON200 := Some {| v4Client.Data := 7%Z |} |})
           200%Z {| v4Client.Data := 7%Z |});
    reflexivity.
Defined.

(** C4, as stated, fails.  On the handle for season 204 the raw call and
    [common.Parse] both succeed, but the parse result has no 200 body: the
    operation returns neither a nil error nor an envelope, it panics. *)
Lemma success_without_body_panics :
  rawCall (T := types) OpRewards impl {| client := theClient; id := 204 |}
    false 0 = ((204%Z, None), 1) /\
  snd (parsedOf (T := types) (I := imports) OpRewards 204%Z) = None /\
  fst (stubInvoke OpRewards 3%positive false start) = Panic /\
  ~ exists env st',
      stubInvoke OpRewards 3%positive false start = (Return (env, None), st').
Proof.
  split_and!; [reflexivity..|].
  intros (env & st' & Hrun).
  apply (f_equal fst) in Hrun. vm_compute in Hrun. discriminate.
Qed.

Lemma request_issued_for_every_context_witness :
  requestCount (trace (snd (stubInvoke OpRewards 1%positive true start))) =
    S (requestCount (trace start)) /\
  In (EvRequest EpSeasonRewards true [200%Z])
     (trace (snd (stubInvoke OpRewards 1%positive true start))) /\
  forall resp e w2,
    call true 200 0 = ((resp, Some e), w2) ->
    fst (stubInvoke OpRewards 1%positive true start) =
      Return ({| Data := zero; ResponseMeta := zero |}, Some e).
Proof.
  apply (request_issued_for_every_context (T := types) (I := imports) OpRewards 1%positive true start
           {| client := theClient; id := 200 |} impl true 0);
    reflexivity.
Defined.

(** C5, as stated, fails.  The context is cancelled and the stub client
    honours the cancellation; the operation does return the cancellation
    error, but the raw call has been issued: the stub has counted one call
    and the request is in the trace. *)
Lemma cancelled_context_still_issues_request :
  fst (stubInvoke OpRewards 1%positive true start) =
    Return ({| Data := 0%Z; ResponseMeta := 0%Z |}, Some Canceled) /\
  world (snd (stubInvoke OpRewards 1%positive true start)) = 1 /\
  trace (snd (stubInvoke OpRewards 1%positive true start)) =
    [EvWrap true; EvRequest EpSeasonRewards true [200%Z]] /\
  ~ requestCount (trace (snd (stubInvoke OpRewards 1%positive true start))) =
      requestCount (trace start).
Proof.
  split_and!; [reflexivity..|].
  intros Hcount. vm_compute in Hcount. discriminate.
Qed.

Lemma Season_handle_fixed_witness :
  exists h st',
    stubSeason 1%positive 5 start = (Return h, st') /\
    handles start !! h = None /\
    handles st' !! h = Some {| client := theClient; id := 5 |} /\
    services st' = services start /\
    forall cs : list Call,
      handles (runCalls cs st') !! h =
        Some {| client := theClient; id := 5 |}.
Proof.
  apply (Season_handle_fixed (T := types) (I := imports) 1%positive 5 start theService).
  reflexivity.
Defined.

Lemma errors_returned_unchanged_witness :
  (forall e, Some (BadStatus 404) = Some e ->
     exists env,
       fst (stubInvoke OpUserRank 2%positive false start) = Return (env, Some e)) /\
  requestCount (trace (snd (stubInvoke OpUserRank 2%positive false start))) = 1.
Proof.
  destruct (errors_returned_unchanged (T := types) (I := imports) OpUserRank 2%positive false start
              {| client := theClient; id := 404 |} impl false 0 404%Z None 1
              eq_refl eq_refl eq_refl eq_refl)
    as (_ & Hdecode & _ & Hcount & _).
  split; [|exact Hcount].
  intros e He. apply Hdecode; [reflexivity|exact He].
Defined.

Lemma invoke_is_execute_without_admission_witness :
  stubInvoke OpRewards 1%positive false start =
    pipelineOf (T := types) (I := imports) cancelled OpRewards 1%positive
      false start.
Proof.
  apply (proj2 (invoke_is_execute_without_admission (T := types)
                  (I := imports) OpRewards 1%positive false start)
           cancelled).
  intros rv c lctx w1 _ _ _. reflexivity.
Defined.

(** C8, as stated, fails.  On a cancelled context [execute] stops at
    admission, so the stub client is never called; the operation returns
    the same error and envelope, but it has called the stub client once. *)
Lemma cancelled_context_separates_invoke_from_execute :
  world (snd (pipelineOf (T := types) (I := imports) cancelled OpRewards
                1%positive true start)) = 0 /\
  world (snd (stubInvoke OpRewards 1%positive true start)) = 1 /\
  fst (pipelineOf (T := types) (I := imports) cancelled OpRewards 1%positive
         true start) =
    fst (stubInvoke OpRewards 1%positive true start) /\
  stubInvoke OpRewards 1%positive true start <>
    pipelineOf (T := types) (I := imports) cancelled OpRewards 1%positive
      true start.
Proof.
  split_and!; [reflexivity..|].
  intros Heq.
  apply (f_equal (fun r => world (snd r))) in Heq.
  vm_compute in Heq. discriminate.
Qed.

Lemma panics_iff_nil_body_witness :
  fst (stubInvoke OpRewards 3%positive false start) = Panic <->
  json200 (Some {| v4Client.JSON200 := @None (v4Client.JSON200Body Z) |})
    = None.
Proof.
  apply (panics_iff_nil_body (T := types) (I := imports) OpRewards 3%positive false start
           {| client := theClient; id := 204 |} impl false 0 204%Z 1
           (Some {| v4Client.JSON200 := None |}) 204%Z);
    reflexivity.
Defined.

(** *** Runs for the further properties *)

Lemma panic_follows_request_and_parse_witness :
  requestCount (trace (snd (stubInvoke OpRewards 3%positive false start))) =
    S (requestCount (trace start)) /\
  parseCount (trace (snd (stubInvoke OpRewards 3%positive false start))) =
    S (parseCount (trace start)).
Proof.
  apply (panic_follows_request_and_parse (T := types) (I := imports)
           OpRewards 3%positive false start
           {| client := theClient; id := 204 |} impl);
    reflexivity.
Defined.

Lemma run_steps_in_order_witness :
  world (snd (stubInvoke OpUserFollowers 1%positive false start)) = 1 /\
  trace (snd (stubInvoke OpUserFollowers 1%positive false start)) =
    trace start
    ++ [EvWrap false; EvRequest EpSeasonUserFollowers false [200%Z]]
    ++ [EvParse EpSeasonUserFollowers 200%Z].
Proof.
  apply (run_steps_in_order (T := types) (I := imports)
           OpUserFollowers 1%positive false start
           {| client := theClient; id := 200 |} impl false 0 200%Z None 1);
    reflexivity.
Defined.

Lemma Season_adds_one_handle_witness :
  exists h st',
    stubSeason 1%positive 5 start = (Return h, st') /\
    (dom (handles st') = {[h]} ∪ dom (handles start)) /\
    (h ∉ dom (handles start)) /\
    size (handles st') = S (size (handles start)) /\
    forall h', h' <> h -> handles st' !! h' = handles start !! h'.
Proof.
  apply (Season_adds_one_handle (T := types) 1%positive 5 start theService).
  reflexivity.
Defined.

Lemma Season_twice_shares_client_witness :
  5%positive <> 6%positive /\
  handles (snd (stubSeason 1%positive 9 (snd (stubSeason 1%positive 9 start))))
    !! 5%positive = Some {| client := theClient; id := 9 |} /\
  handles (snd (stubSeason 1%positive 9 (snd (stubSeason 1%positive 9 start))))
    !! 6%positive = Some {| client := theClient; id := 9 |}.
Proof.
  apply (Season_twice_shares_client (T := types) 1%positive 9 9 start
           theService 5%positive (snd (stubSeason 1%positive 9 start))
           6%positive
           (snd (stubSeason 1%positive 9 (snd (stubSeason 1%positive 9 start)))));
    reflexivity.
Defined.

Lemma Season_then_method_sends_id_witness :
  exists evs,
    trace (snd (stubInvoke OpUserRank 5%positive false
                  (snd (stubSeason 1%positive 404 start)))) =
      trace start ++ [EvWrap false; EvRequest EpSeasonUserRank false [404%Z]]
      ++ evs /\
    length evs <= 1.
Proof.
  apply (Season_then_method_sends_id (T := types) (I := imports)
           OpUserRank 1%positive 404 start theService impl 5%positive
           (snd (stubSeason 1%positive 404 start)) false false 0);
    reflexivity.
Defined.

Lemma repeated_calls_each_issue_request_witness :
  requestCount
    (trace (runCalls (map (CallOp OpRewards 3%positive) [false; true; false])
              start)) =
    requestCount (trace start) + 3.
Proof.
  apply (repeated_calls_each_issue_request (T := types) (I := imports)
           OpRewards 3%positive {| client := theClient; id := 204 |} impl
           [false; true; false] start);
    reflexivity.
Defined.

Lemma outcome_depends_on_receiver_value_witness :
  fst (stubInvoke OpRewards 1%positive false start) =
    fst (stubInvoke OpRewards 5%positive false
           (snd (stubSeason 1%positive 200 start))) /\
  world (snd (stubInvoke OpRewards 1%positive false start)) =
    world (snd (stubInvoke OpRewards 5%positive false
                  (snd (stubSeason 1%positive 200 start)))).
Proof.
  apply (outcome_depends_on_receiver_value (T := types) (I := imports)
           OpRewards 1%positive 5%positive false start
           (snd (stubSeason 1%positive 200 start)));
    reflexivity.
Defined.


Lemma error_comes_from_a_step_witness :
  exists rv c lctx w1 resp rerr w2,
    lookupRecv (T := types) OpRewards start 2%positive = Some rv /\
    clientOf (T := types) OpRewards rv = Some c /\
    Wrap (Limiter c) false (world start) = (lctx, w1) /\
    rawCall (T := types) OpRewards c rv lctx w1 = ((resp, rerr), w2) /\
    ((rerr = Some (BadStatus 404) /\ 404%Z = zero) \/
     (rerr = None /\
      exists parsed,
        parsedOf (T := types) (I := imports) OpRewards resp
          = (parsed, 404%Z, Some (BadStatus 404)))).
Proof.
  apply (error_comes_from_a_step (T := types) (I := imports)
           OpRewards 2%positive false start
           (@Build_Envelope types Z 0%Z 404%Z) (BadStatus 404)
           (snd (stubInvoke OpRewards 2%positive false start))).
  reflexivity.
Defined.
